(** * RangeRite ADC two-point calibration example: a shallow embedding

    The sketch [RangeRite_ADC_TwoPointCal_Example.ino] configures an
    ADS868x/ADS869x converter over SPI, converts raw codes to volts and
    optionally applies a two-point linear calibration.

    Modelling choices:
    - [float] arithmetic is modelled by exact rational arithmetic on [Q]
      (the idealised value of each float expression, no rounding); where a
      rounded float is truncated to an integer code (the averaged read),
      single-precision rounding is also written out, see [adsx_avg_code_rnd];
    - unsigned integers ([uint16_t], [uint32_t]) are [Z] with their
      wrap-around written out;
    - the preprocessor configuration ([ADSX_BITS], [ADSX_ENABLE_TWO_POINT_CAL],
      the calibration constants) is a record [config];
    - the file-scope globals ([g_range_code], [g_vref_volts], ...) are a
      record [state], and the public entry points are functions on it;
    - the SPI device is an oracle: [sample i] is the 32-bit word returned by
      the [i]-th call of [adsxReadCodeRaw32] within one averaging loop. *)

From Stdlib Require Import ZArith QArith Qabs Qfield Lqa Lia List String.
Import ListNotations.
Open Scope Z_scope.

(** ** Compile-time configuration *)

Record config := mkConfig {
  ADSX_BITS : Z;                         (* 16 or 18 *)
  ADSX_ENABLE_TWO_POINT_CAL : bool;
  ADSX_CAL_RANGE_CODE : Z;
  ADSX_CAL_P1_ACTUAL : Q;
  ADSX_CAL_P1_MEASURED : Q;
  ADSX_CAL_P2_ACTUAL : Q;
  ADSX_CAL_P2_MEASURED : Q
}.

(** [#error "ADSX_BITS must be 16 or 18"] *)
Definition config_ok (cfg : config) : Prop :=
  ADSX_BITS cfg = 16 \/ ADSX_BITS cfg = 18.

(** [#if ADSX_BITS == 18 ... #else ... #endif] *)
Definition ADSX_CODE_SHIFT (cfg : config) : Z :=
  if Z.eqb (ADSX_BITS cfg) 18 then 14 else 16.

Definition ADSX_CODE_MASK (cfg : config) : Z :=
  if Z.eqb (ADSX_BITS cfg) 18 then 262143 (* 0x3FFFF *) else 65535 (* 0xFFFF *).

(** Range selector codes (RANGE_SEL[3:0]). *)
Definition ADSX_RANGE_BIPOLAR_3X : Z := 0.
Definition ADSX_RANGE_BIPOLAR_2P5X : Z := 1.
Definition ADSX_RANGE_BIPOLAR_1P5X : Z := 2.
Definition ADSX_RANGE_BIPOLAR_1P25X : Z := 3.
Definition ADSX_RANGE_BIPOLAR_0P625X : Z := 4.
Definition ADSX_RANGE_UNIPOLAR_3X : Z := 8.
Definition ADSX_RANGE_UNIPOLAR_2P5X : Z := 9.
Definition ADSX_RANGE_UNIPOLAR_1P5X : Z := 10.
Definition ADSX_RANGE_UNIPOLAR_1P25X : Z := 11.

(** The configuration as shipped: 16-bit part, calibration off, calibration
    collected at [ADSX_RANGE_BIPOLAR_3X] with the two sample points. *)
Definition shipped_config : config := {|
  ADSX_BITS := 16;
  ADSX_ENABLE_TWO_POINT_CAL := false;
  ADSX_CAL_RANGE_CODE := ADSX_RANGE_BIPOLAR_3X;
  ADSX_CAL_P1_ACTUAL := Qmake (-100002) 10000;
  ADSX_CAL_P1_MEASURED := Qmake (-100017) 10000;
  ADSX_CAL_P2_ACTUAL := Qmake 100027 10000;
  ADSX_CAL_P2_MEASURED := Qmake 100045 10000
|}.

(** The same sketch with [ADSX_ENABLE_TWO_POINT_CAL] set to 1. *)
Definition cal_config : config := {|
  ADSX_BITS := 16;
  ADSX_ENABLE_TWO_POINT_CAL := true;
  ADSX_CAL_RANGE_CODE := ADSX_RANGE_BIPOLAR_3X;
  ADSX_CAL_P1_ACTUAL := Qmake (-100002) 10000;
  ADSX_CAL_P1_MEASURED := Qmake (-100017) 10000;
  ADSX_CAL_P2_ACTUAL := Qmake 100027 10000;
  ADSX_CAL_P2_MEASURED := Qmake 100045 10000
|}.

(** ** Globals *)

(** Lines printed on [Serial] that matter for the calibration logic. *)
Inductive msg :=
| MsgCalEnabled
| MsgCalRangeCode (c : Z)
| MsgCalSlope (q : Q)
| MsgCalOffset (q : Q)
| MsgCalRangeWarning
| MsgCalDisabled
| MsgConfigured (bits : Z)
| MsgVolts (v : Q).

Record state := mkState {
  g_range_code : Z;          (* uint16_t *)
  g_useInternalRef : bool;
  g_vref_volts : Q;          (* float *)
  g_num_averages : Z;        (* uint16_t *)
  g_cal_enabled : bool;
  g_cal_slope : Q;
  g_cal_offset : Q;
  serial : list msg          (* Serial output, oldest first *)
}.

Definition init_state : state := {|
  g_range_code := ADSX_RANGE_BIPOLAR_3X;
  g_useInternalRef := true;
  g_vref_volts := Qmake 4096 1000;
  g_num_averages := 12;
  g_cal_enabled := false;
  g_cal_slope := 1%Q;
  g_cal_offset := 0%Q;
  serial := []
|}.

(** ** Conversion *)

(** [adsxSetVrefVolts]: [if (vref_volts > 0.0f) g_vref_volts = vref_volts;] *)
Definition adsxSetVrefVolts (st : state) (vref_volts : Q) : state :=
  if Qlt_le_dec 0 vref_volts
  then {| g_range_code := g_range_code st; g_useInternalRef := g_useInternalRef st;
          g_vref_volts := vref_volts; g_num_averages := g_num_averages st;
          g_cal_enabled := g_cal_enabled st; g_cal_slope := g_cal_slope st;
          g_cal_offset := g_cal_offset st; serial := serial st |}
  else st.

(** [adsxSetRange]: the register write and the discarded conversion only
    touch the device; the globals updated are the range code (low nibble of
    the [uint16_t] argument) and the reference flag. *)
Definition adsxSetRange (st : state) (range_code : Z) (useInternalRef : bool) : state :=
  {| g_range_code := Z.land range_code 15; g_useInternalRef := useInternalRef;
     g_vref_volts := g_vref_volts st; g_num_averages := g_num_averages st;
     g_cal_enabled := g_cal_enabled st; g_cal_slope := g_cal_slope st;
     g_cal_offset := g_cal_offset st; serial := serial st |}.

(** [adsxRangeMultiplier]: returns the multiplier and sets [isBipolar]. *)
Definition adsxRangeMultiplier (code : Z) : Q * bool :=
  match Z.land code 15 with
  | 0 => (3%Q, true)
  | 1 => (Qmake 5 2, true)
  | 2 => (Qmake 3 2, true)
  | 3 => (Qmake 5 4, true)
  | 4 => (Qmake 5 8, true)
  | 8 => (3%Q, false)
  | 9 => (Qmake 5 2, false)
  | 10 => (Qmake 3 2, false)
  | 11 => (Qmake 5 4, false)
  | _ => (Qmake 5 4, false)
  end.

(** [if (codeN > ADSX_CODE_MASK) codeN = ADSX_CODE_MASK;] *)
Definition adsx_clamp (cfg : config) (codeN : Z) : Z :=
  if Z.gtb codeN (ADSX_CODE_MASK cfg) then ADSX_CODE_MASK cfg else codeN.

(** [adsxCodeToVolts] *)
Definition adsxCodeToVolts (cfg : config) (st : state) (codeN0 : Z) : Q :=
  let codeN := adsx_clamp cfg codeN0 in
  let '(mult, bipolar) := adsxRangeMultiplier (g_range_code st) in
  let vref := g_vref_volts st in
  let PFS := (mult * vref)%Q in
  let NFS := (if bipolar then - PFS else 0)%Q in
  let FSR := (PFS - NFS)%Q in
  let LSB := (FSR / inject_Z (Z.shiftl 1 (ADSX_BITS cfg)))%Q in
  (NFS + inject_Z codeN * LSB)%Q.

(** ** Acquisition and averaging *)

(** [adsxReadCodeNbits]: [(w >> ADSX_CODE_SHIFT) & ADSX_CODE_MASK] on the
    word [w] returned by [adsxReadCodeRaw32]. *)
Definition adsxReadCodeNbits (cfg : config) (w : Z) : Z :=
  Z.land (Z.shiftr w (ADSX_CODE_SHIFT cfg)) (ADSX_CODE_MASK cfg).

(** [uint32_t] addition. *)
Definition add_u32 (a b : Z) : Z := (a + b) mod 2 ^ 32.

(** The [for] loop of [adsxReadAveragedVolts]: iterations [i .. i+fuel-1]. *)
Fixpoint accumulate (cfg : config) (sample : nat -> Z) (i fuel : nat) (code_accumulator : Z) : Z :=
  match fuel with
  | O => code_accumulator
  | S fuel' =>
      let code := adsxReadCodeNbits cfg (sample i) in
      accumulate cfg sample (S i) fuel' (add_u32 code_accumulator code)
  end.

(** [uint16_t n = (g_num_averages < 1) ? 1 : g_num_averages;] *)
Definition num_samples (st : state) : Z :=
  if Z.ltb (g_num_averages st) 1 then 1 else g_num_averages st.

(** [float avg_code = (float)code_accumulator / (float)n;] read as exact
    division. Single-precision rounding can change the truncated code once
    the sum exceeds 2^24 or [n] is large; in the states the sketch reaches
    ([n = 12], codes of at most 18 bits) it cannot, see
    [adsx_avg_code_rnd] and [avg_rounding_trunc]. *)
Definition adsx_avg_code (cfg : config) (st : state) (sample : nat -> Z) : Q :=
  let n := num_samples st in
  let code_accumulator := accumulate cfg sample 0 (Z.to_nat n) 0 in
  (inject_Z code_accumulator / inject_Z n)%Q.

(** The same expression with single-precision rounding written out: [rnd]
    is applied to each of the two [(float)] conversions and to the quotient,
    as the sketch's [float] arithmetic does. [adsx_avg_code] is this
    expression with [rnd] the identity. *)
Definition adsx_avg_code_rnd (rnd : Q -> Q) (cfg : config) (st : state) (sample : nat -> Z) : Q :=
  let n := num_samples st in
  let code_accumulator := accumulate cfg sample 0 (Z.to_nat n) 0 in
  rnd (rnd (inject_Z code_accumulator) / rnd (inject_Z n))%Q.

(** What IEEE-754 single precision with round-to-nearest guarantees of a
    rounding [rnd]: integers below 2^24 are represented exactly, and in the
    normal range the relative error is at most 2^-24. *)
Definition f32_rounding (rnd : Q -> Q) : Prop :=
  (forall (x : Q) (z : Z), 0 <= z < 2 ^ 24 -> (x == inject_Z z)%Q -> (rnd x == inject_Z z)%Q) /\
  (forall x : Q, (1 # 2 ^ 126 <= x)%Q -> (x <= inject_Z (2 ^ 127))%Q ->
     (Qabs (rnd x - x) <= x / inject_Z (2 ^ 24))%Q).

(** The C conversion [(uint32_t)f] of a non-negative float: truncation
    toward zero. *)
Definition float_to_uint32 (f : Q) : Z := Z.quot (Qnum f) (Zpos (Qden f)).

(** [adsxReadAveragedVolts]; the calibration branch only exists when the
    sketch is built with [ADSX_ENABLE_TWO_POINT_CAL] set to 1. *)
Definition adsxReadAveragedVolts (cfg : config) (st : state) (sample : nat -> Z) : Q :=
  let avg_code := adsx_avg_code cfg st sample in
  let volts_raw := adsxCodeToVolts cfg st (float_to_uint32 avg_code) in
  if ADSX_ENABLE_TWO_POINT_CAL cfg
     && g_cal_enabled st && Z.eqb (g_range_code st) (ADSX_CAL_RANGE_CODE cfg)
  then (g_cal_offset st + g_cal_slope st * volts_raw)%Q
  else volts_raw.

(** ** [setup] and [loop] *)

Definition set_cal (st : state) (en : bool) (slope offset : Q) : state :=
  {| g_range_code := g_range_code st; g_useInternalRef := g_useInternalRef st;
     g_vref_volts := g_vref_volts st; g_num_averages := g_num_averages st;
     g_cal_enabled := en; g_cal_slope := slope; g_cal_offset := offset;
     serial := serial st |}.

Definition print (st : state) (out : list msg) : state :=
  {| g_range_code := g_range_code st; g_useInternalRef := g_useInternalRef st;
     g_vref_volts := g_vref_volts st; g_num_averages := g_num_averages st;
     g_cal_enabled := g_cal_enabled st; g_cal_slope := g_cal_slope st;
     g_cal_offset := g_cal_offset st; serial := serial st ++ out |}.

(** The [#if ADSX_ENABLE_TWO_POINT_CAL] block of [setup]. *)
Definition setup_cal (cfg : config) (st : state) : state :=
  if ADSX_ENABLE_TWO_POINT_CAL cfg then
    if negb (Qeq_bool (ADSX_CAL_P2_MEASURED cfg) (ADSX_CAL_P1_MEASURED cfg)) then
      let g_cal_slope := ((ADSX_CAL_P2_ACTUAL cfg - ADSX_CAL_P1_ACTUAL cfg) /
                          (ADSX_CAL_P2_MEASURED cfg - ADSX_CAL_P1_MEASURED cfg))%Q in
      let g_cal_offset := (ADSX_CAL_P1_ACTUAL cfg - g_cal_slope * ADSX_CAL_P1_MEASURED cfg)%Q in
      let st1 := set_cal st true g_cal_slope g_cal_offset in
      let st2 := print st1 [MsgCalEnabled; MsgCalRangeCode (ADSX_CAL_RANGE_CODE cfg);
                            MsgCalSlope g_cal_slope; MsgCalOffset g_cal_offset] in
      if negb (Z.eqb (g_range_code st2) (ADSX_CAL_RANGE_CODE cfg))
      then print st2 [MsgCalRangeWarning]
      else st2
    else
      print (set_cal st false (g_cal_slope st) (g_cal_offset st)) [MsgCalDisabled]
  else set_cal st false (g_cal_slope st) (g_cal_offset st).

(** [setup]: pin, reset and SPI initialisation touch only the hardware. *)
Definition setup (cfg : config) (st : state) : state :=
  let st1 := adsxSetVrefVolts st (Qmake 4096 1000) in
  let st2 := adsxSetRange st1 (g_range_code st1) true in
  let st3 := setup_cal cfg st2 in
  print st3 [MsgConfigured (ADSX_BITS cfg)].

(** [loop]: one reading printed every two seconds. *)
Definition loop (cfg : config) (st : state) (sample : nat -> Z) : state :=
  print st [MsgVolts (adsxReadAveragedVolts cfg st sample)].

(** ** Executions

    After reset the board runs [setup] and then [loop] forever; the
    non-static entry points [adsxSetVrefVolts] and [adsxSetRange] may also be
    called at any time (with a [uint16_t] range code). *)
Inductive step (cfg : config) : state -> state -> Prop :=
| step_setup st : step cfg st (setup cfg st)
| step_loop st sample : step cfg st (loop cfg st sample)
| step_setVref st v : step cfg st (adsxSetVrefVolts st v)
| step_setRange st rc b : 0 <= rc < 65536 -> step cfg st (adsxSetRange st rc b).

Inductive reachable (cfg : config) : state -> Prop :=
| reach_init : reachable cfg init_state
| reach_step st st' : reachable cfg st -> step cfg st st' -> reachable cfg st'.

(** The state after power-up under a configuration. *)
Definition after_setup (cfg : config) : state := setup cfg init_state.

(** ** The transfer function as the spec words it (section 4.1) *)

Definition spec_codeToVoltage (cfg : config) (st : state) (code : Q) : Q :=
  let mult := fst (adsxRangeMultiplier (g_range_code st)) in
  let PFS := (mult * g_vref_volts st)%Q in
  let NFS := (if snd (adsxRangeMultiplier (g_range_code st)) then - PFS else 0)%Q in
  let FSR := (PFS - NFS)%Q in
  let LSB := (FSR / inject_Z (2 ^ ADSX_BITS cfg))%Q in
  (NFS + code * LSB)%Q.

(** ** Facts about the embedding *)

Lemma code_mask_ones (cfg : config) :
  config_ok cfg -> ADSX_CODE_MASK cfg = Z.ones (ADSX_BITS cfg).
Proof.
  unfold config_ok, ADSX_CODE_MASK; intros [H | H]; rewrite H; reflexivity.
Qed.

Lemma code_mask_eq (cfg : config) :
  config_ok cfg -> ADSX_CODE_MASK cfg = 2 ^ ADSX_BITS cfg - 1.
Proof.
  intros H; rewrite code_mask_ones by exact H.
  unfold Z.ones; rewrite Z.shiftl_1_l; lia.
Qed.

Lemma config_ok_bits_nonneg (cfg : config) : config_ok cfg -> 0 <= ADSX_BITS cfg.
Proof. unfold config_ok; lia. Qed.

Lemma adsx_clamp_in_range (cfg : config) (c : Z) :
  c <= ADSX_CODE_MASK cfg -> adsx_clamp cfg c = c.
Proof.
  unfold adsx_clamp; intros H.
  destruct (Z.gtb_spec c (ADSX_CODE_MASK cfg)); [lia | reflexivity].
Qed.

Lemma adsx_clamp_above (cfg : config) (c : Z) :
  ADSX_CODE_MASK cfg < c -> adsx_clamp cfg c = ADSX_CODE_MASK cfg.
Proof.
  unfold adsx_clamp; intros H.
  destruct (Z.gtb_spec c (ADSX_CODE_MASK cfg)); [reflexivity | lia].
Qed.

Lemma adsxCodeToVolts_clamp (cfg : config) (st : state) (c : Z) :
  adsxCodeToVolts cfg st c = adsxCodeToVolts cfg st (adsx_clamp cfg c).
Proof.
  unfold adsxCodeToVolts.
  assert (E : adsx_clamp cfg (adsx_clamp cfg c) = adsx_clamp cfg c).
  { destruct (Z.le_gt_cases c (ADSX_CODE_MASK cfg)) as [H | H].
    - rewrite (adsx_clamp_in_range cfg c H); exact (adsx_clamp_in_range cfg c H).
    - rewrite (adsx_clamp_above cfg c H); apply adsx_clamp_in_range; lia. }
  rewrite E; reflexivity.
Qed.

Lemma adsxReadCodeNbits_bounds (cfg : config) (w : Z) :
  config_ok cfg -> 0 <= adsxReadCodeNbits cfg w <= ADSX_CODE_MASK cfg.
Proof.
  intros Hok; unfold adsxReadCodeNbits.
  rewrite (code_mask_ones cfg Hok), Z.land_ones by (apply config_ok_bits_nonneg; exact Hok).
  rewrite <- (code_mask_ones cfg Hok), (code_mask_eq cfg Hok).
  pose proof (Z.mod_pos_bound (Z.shiftr w (ADSX_CODE_SHIFT cfg)) (2 ^ ADSX_BITS cfg)
                (Z.pow_pos_nonneg 2 _ ltac:(lia) (config_ok_bits_nonneg cfg Hok))).
  lia.
Qed.

(** ** C1: the transfer function on in-range codes *)

(** Claim C1: for every code in [0, 2^N - 1] (N = 16 or 18),
    [adsxCodeToVolts(code)] equals [NFS + code * LSB] with
    [PFS = multiplier * reference_voltage] for the active range,
    [NFS = -PFS] (bipolar) or [0] (unipolar), [FSR = PFS - NFS] and
    [LSB = FSR / 2^N]. *)
Theorem adsxCodeToVolts_formula (cfg : config) (st : state) (code : Z) :
  config_ok cfg ->
  0 <= code <= 2 ^ ADSX_BITS cfg - 1 ->
  (adsxCodeToVolts cfg st code == spec_codeToVoltage cfg st (inject_Z code))%Q.
Proof.
  intros Hok Hc.
  unfold adsxCodeToVolts, spec_codeToVoltage.
  rewrite adsx_clamp_in_range by (rewrite code_mask_eq by exact Hok; lia).
  rewrite Z.shiftl_1_l.
  destruct (adsxRangeMultiplier (g_range_code st)) as [mult bip]; simpl.
  reflexivity.
Qed.

(** ** C7: out-of-range codes are clamped *)

(** Claim C7: every code above [2^N - 1] is clamped to [2^N - 1] before
    conversion, so in particular [adsxCodeToVolts(2^N) = adsxCodeToVolts(2^N - 1)]. *)
Theorem adsxCodeToVolts_clamps_above (cfg : config) (st : state) :
  config_ok cfg ->
  (forall code, 2 ^ ADSX_BITS cfg - 1 < code ->
     adsx_clamp cfg code = 2 ^ ADSX_BITS cfg - 1 /\
     adsxCodeToVolts cfg st code = adsxCodeToVolts cfg st (2 ^ ADSX_BITS cfg - 1)) /\
  adsxCodeToVolts cfg st (2 ^ ADSX_BITS cfg) = adsxCodeToVolts cfg st (2 ^ ADSX_BITS cfg - 1).
Proof.
  intros Hok.
  assert (Hc : forall code, 2 ^ ADSX_BITS cfg - 1 < code ->
     adsx_clamp cfg code = 2 ^ ADSX_BITS cfg - 1 /\
     adsxCodeToVolts cfg st code = adsxCodeToVolts cfg st (2 ^ ADSX_BITS cfg - 1)).
  { intros code H; rewrite <- (code_mask_eq cfg Hok) in *.
    split; [apply adsx_clamp_above; exact H |].
    rewrite adsxCodeToVolts_clamp, adsx_clamp_above by exact H.
    rewrite (adsxCodeToVolts_clamp cfg st (ADSX_CODE_MASK cfg)),
            adsx_clamp_in_range by lia.
    reflexivity. }
  split; [exact Hc |].
  apply Hc; lia.
Qed.

(** ** C9: acquired codes never reach the clamp *)

(** Claim C9: every code produced by [adsxReadCodeNbits] lies in
    [0, 2^N - 1] because of the N-bit mask, so the clamp in
    [adsxCodeToVolts] leaves it unchanged. *)
Theorem adsxReadCodeNbits_no_clamp (cfg : config) (w : Z) :
  config_ok cfg ->
  0 <= adsxReadCodeNbits cfg w <= 2 ^ ADSX_BITS cfg - 1 /\
  adsx_clamp cfg (adsxReadCodeNbits cfg w) = adsxReadCodeNbits cfg w.
Proof.
  intros Hok.
  pose proof (adsxReadCodeNbits_bounds cfg w Hok) as B.
  split.
  - rewrite <- (code_mask_eq cfg Hok); exact B.
  - apply adsx_clamp_in_range; lia.
Qed.

(** ** The reference voltage over executions *)

Lemma vref_setRange (st : state) (rc : Z) (b : bool) :
  g_vref_volts (adsxSetRange st rc b) = g_vref_volts st.
Proof. reflexivity. Qed.

Lemma vref_print (st : state) (out : list msg) :
  g_vref_volts (print st out) = g_vref_volts st.
Proof. reflexivity. Qed.

Lemma vref_set_cal (st : state) (en : bool) (s o : Q) :
  g_vref_volts (set_cal st en s o) = g_vref_volts st.
Proof. reflexivity. Qed.

Lemma vref_setup_cal (cfg : config) (st : state) :
  g_vref_volts (setup_cal cfg st) = g_vref_volts st.
Proof.
  unfold setup_cal.
  destruct (ADSX_ENABLE_TWO_POINT_CAL cfg); [| reflexivity].
  destruct (negb _); [| reflexivity].
  cbv zeta; destruct (negb _); reflexivity.
Qed.

Lemma vref_setVref_pos (st : state) (v : Q) :
  (0 < v)%Q -> g_vref_volts (adsxSetVrefVolts st v) = v.
Proof.
  unfold adsxSetVrefVolts; intros H.
  destruct (Qlt_le_dec 0 v) as [_ | H']; [reflexivity |].
  exfalso; apply (Qlt_not_le 0 v H H').
Qed.

Lemma setVref_nonpos (st : state) (v : Q) :
  (v <= 0)%Q -> adsxSetVrefVolts st v = st.
Proof.
  unfold adsxSetVrefVolts; intros H.
  destruct (Qlt_le_dec 0 v) as [H' | _]; [| reflexivity].
  exfalso; apply (Qlt_not_le 0 v H' H).
Qed.

Lemma vref_setup (cfg : config) (st : state) :
  g_vref_volts (setup cfg st) = Qmake 4096 1000.
Proof.
  unfold setup; rewrite vref_print, vref_setup_cal, vref_setRange.
  apply vref_setVref_pos; reflexivity.
Qed.

Lemma vref_step_pos (cfg : config) (st st' : state) :
  step cfg st st' -> (0 < g_vref_volts st)%Q -> (0 < g_vref_volts st')%Q.
Proof.
  intros Hs H; destruct Hs as [st0 | st0 sample | st0 v | st0 rc b _].
  - rewrite vref_setup; reflexivity.
  - unfold loop; rewrite vref_print; exact H.
  - destruct (Qlt_le_dec 0 v) as [Hv | Hv].
    + rewrite vref_setVref_pos by exact Hv; exact Hv.
    + rewrite setVref_nonpos by exact Hv; exact H.
  - rewrite vref_setRange; exact H.
Qed.

Lemma vref_pos_reachable (cfg : config) (st : state) :
  reachable cfg st -> (0 < g_vref_volts st)%Q.
Proof.
  induction 1 as [| st st' _ IH Hs].
  - reflexivity.
  - exact (vref_step_pos cfg st st' Hs IH).
Qed.

(** ** C10: the reference voltage stays positive *)

(** Claim C10: [adsxSetVrefVolts] stores its argument only when it is
    positive and leaves the state unchanged otherwise; [adsxSetRange] and
    [loop] never write the reference, [setup] writes 4.096 V through
    [adsxSetVrefVolts]; hence in every reachable state the reference read by
    [adsxCodeToVolts] is strictly positive. *)
Theorem vref_always_positive (cfg : config) :
  (forall st v, (0 < v)%Q -> g_vref_volts (adsxSetVrefVolts st v) = v) /\
  (forall st v, (v <= 0)%Q -> adsxSetVrefVolts st v = st) /\
  (forall st rc b, g_vref_volts (adsxSetRange st rc b) = g_vref_volts st) /\
  (forall st sample, g_vref_volts (loop cfg st sample) = g_vref_volts st) /\
  (forall st, g_vref_volts (setup cfg st) = Qmake 4096 1000) /\
  (forall st, reachable cfg st -> (0 < g_vref_volts st)%Q).
Proof.
  split; [exact vref_setVref_pos |].
  split; [exact setVref_nonpos |].
  split; [exact vref_setRange |].
  split; [intros st sample; apply vref_print |].
  split; [exact (vref_setup cfg) |].
  exact (vref_pos_reachable cfg).
Qed.

(** ** Bipolar ranges *)

Lemma adsxRangeMultiplier_pos (code : Z) : (0 < fst (adsxRangeMultiplier code))%Q.
Proof.
  unfold adsxRangeMultiplier.
  repeat match goal with |- context [match ?x with _ => _ end] => destruct x end;
  reflexivity.
Qed.

Lemma pow2_bits_pos (cfg : config) :
  config_ok cfg -> (0 < inject_Z (Z.shiftl 1 (ADSX_BITS cfg)))%Q.
Proof.
  intros Hok; rewrite Z.shiftl_1_l.
  change 0%Q with (inject_Z 0); rewrite <- Zlt_Qlt.
  apply Z.pow_pos_nonneg; [lia | apply config_ok_bits_nonneg; exact Hok].
Qed.

(** ** C8: bipolar transfer function *)

(** Claim C8: for a bipolar range (in any reachable state),
    [adsxCodeToVolts(0) = -multiplier * reference_voltage], and
    [adsxCodeToVolts] is strictly increasing over [0, 2^N - 1]. *)
Theorem adsxCodeToVolts_bipolar (cfg : config) (st : state) :
  config_ok cfg ->
  reachable cfg st ->
  snd (adsxRangeMultiplier (g_range_code st)) = true ->
  (adsxCodeToVolts cfg st 0 == - (fst (adsxRangeMultiplier (g_range_code st)) * g_vref_volts st))%Q /\
  (forall c1 c2, 0 <= c1 -> c1 < c2 -> c2 <= 2 ^ ADSX_BITS cfg - 1 ->
     (adsxCodeToVolts cfg st c1 < adsxCodeToVolts cfg st c2)%Q).
Proof.
  intros Hok Hr Hbip.
  pose proof (vref_pos_reachable cfg st Hr) as Hv.
  pose proof (adsxRangeMultiplier_pos (g_range_code st)) as Hm.
  pose proof (pow2_bits_pos cfg Hok) as Hp.
  rewrite <- (code_mask_eq cfg Hok).
  unfold adsxCodeToVolts.
  destruct (adsxRangeMultiplier (g_range_code st)) as [m b]; simpl in Hbip, Hm |- *.
  subst b.
  set (V := g_vref_volts st) in *.
  set (P := inject_Z (Z.shiftl 1 (ADSX_BITS cfg))) in *.
  assert (HL : (0 < (m * V - - (m * V)) / P)%Q).
  { apply Qlt_shift_div_l; [exact Hp |].
    assert (0 < m * V)%Q by (apply Qmult_lt_0_compat; assumption).
    setoid_replace (0 * P)%Q with 0%Q by ring. lra. }
  split.
  - rewrite adsx_clamp_in_range by (unfold ADSX_CODE_MASK; destruct (_ =? _); lia).
    simpl; ring.
  - intros c1 c2 H0 H12 H2.
    rewrite !adsx_clamp_in_range by lia.
    apply Qplus_lt_r.
    apply Qmult_lt_compat_r; [exact HL |].
    rewrite <- Zlt_Qlt; exact H12.
Qed.

(** ** Calibration fit *)

Lemma setup_fields (cfg : config) (st : state) :
  let st2 := adsxSetRange (adsxSetVrefVolts st (Qmake 4096 1000))
                          (g_range_code (adsxSetVrefVolts st (Qmake 4096 1000))) true in
  g_cal_enabled (setup cfg st) = g_cal_enabled (setup_cal cfg st2) /\
  g_cal_slope (setup cfg st) = g_cal_slope (setup_cal cfg st2) /\
  g_cal_offset (setup cfg st) = g_cal_offset (setup_cal cfg st2) /\
  g_range_code (setup cfg st) = g_range_code (setup_cal cfg st2).
Proof. repeat split. Qed.

Lemma setup_cal_range (cfg : config) (st : state) :
  g_range_code (setup_cal cfg st) = g_range_code st.
Proof.
  unfold setup_cal.
  destruct (ADSX_ENABLE_TWO_POINT_CAL cfg); [| reflexivity].
  destruct (negb _); [| reflexivity].
  cbv zeta; destruct (negb _); reflexivity.
Qed.

Lemma range_setVref (st : state) (v : Q) :
  g_range_code (adsxSetVrefVolts st v) = g_range_code st.
Proof. unfold adsxSetVrefVolts; destruct (Qlt_le_dec 0 v); reflexivity. Qed.

Lemma setup_range (cfg : config) (st : state) :
  g_range_code (setup cfg st) = Z.land (g_range_code st) 15.
Proof.
  unfold setup, print; cbn [g_range_code]; rewrite setup_cal_range.
  unfold adsxSetRange; cbn [g_range_code]; rewrite range_setVref; reflexivity.
Qed.

Lemma setup_cal_fit (cfg : config) (st : state) :
  ADSX_ENABLE_TWO_POINT_CAL cfg = true ->
  Qeq_bool (ADSX_CAL_P2_MEASURED cfg) (ADSX_CAL_P1_MEASURED cfg) = false ->
  let slope := ((ADSX_CAL_P2_ACTUAL cfg - ADSX_CAL_P1_ACTUAL cfg) /
                (ADSX_CAL_P2_MEASURED cfg - ADSX_CAL_P1_MEASURED cfg))%Q in
  g_cal_enabled (setup cfg st) = true /\
  g_cal_slope (setup cfg st) = slope /\
  g_cal_offset (setup cfg st) = (ADSX_CAL_P1_ACTUAL cfg - slope * ADSX_CAL_P1_MEASURED cfg)%Q.
Proof.
  intros Hen Hne; cbv zeta.
  destruct (setup_fields cfg st) as (E1 & E2 & E3 & _).
  rewrite E1, E2, E3; unfold setup_cal; rewrite Hen, Hne; simpl.
  destruct (negb _); repeat split.
Qed.

Lemma setup_cal_degenerate (cfg : config) (st : state) :
  ADSX_ENABLE_TWO_POINT_CAL cfg = true ->
  Qeq_bool (ADSX_CAL_P2_MEASURED cfg) (ADSX_CAL_P1_MEASURED cfg) = true ->
  g_cal_enabled (setup cfg st) = false /\
  firstn 1 (rev (serial (setup cfg st))) = [MsgConfigured (ADSX_BITS cfg)] /\
  firstn 1 (tl (rev (serial (setup cfg st)))) = [MsgCalDisabled].
Proof.
  intros Hen Heq.
  unfold setup, setup_cal; rewrite Hen, Heq; simpl.
  rewrite !rev_app_distr; simpl.
  repeat split.
Qed.

(** Which branch [adsxReadAveragedVolts] takes. *)
Definition cal_applies (cfg : config) (st : state) : bool :=
  ADSX_ENABLE_TWO_POINT_CAL cfg && g_cal_enabled st &&
  Z.eqb (g_range_code st) (ADSX_CAL_RANGE_CODE cfg).

(** The uncorrected reading computed by [adsxReadAveragedVolts]. *)
Definition volts_raw (cfg : config) (st : state) (sample : nat -> Z) : Q :=
  adsxCodeToVolts cfg st (float_to_uint32 (adsx_avg_code cfg st sample)).

Lemma adsxReadAveragedVolts_branch (cfg : config) (st : state) (sample : nat -> Z) :
  adsxReadAveragedVolts cfg st sample =
  if cal_applies cfg st
  then (g_cal_offset st + g_cal_slope st * volts_raw cfg st sample)%Q
  else volts_raw cfg st sample.
Proof. reflexivity. Qed.

Lemma Qeq_bool_false_of_neq (x y : Q) : ~ (x == y)%Q -> Qeq_bool y x = false.
Proof.
  intros H; destruct (Qeq_bool y x) eqn:E; [| reflexivity].
  exfalso; apply H; apply Qeq_sym, Qeq_bool_iff; exact E.
Qed.

(** ** C2: the two-point fit *)

(** Claim C2: when [p1_measured <> p2_measured], the fit computed by [setup]
    (in a build with [ADSX_ENABLE_TWO_POINT_CAL] set to 1) yields an enabled
    model with [slope = (p2_actual - p1_actual) / (p2_measured - p1_measured)]
    and [offset = p1_actual - slope * p1_measured]; applying it in
    [adsxReadAveragedVolts] returns [offset + slope * v] for the raw
    voltage [v]. *)
Theorem two_point_fit (cfg : config) (st : state) :
  ADSX_ENABLE_TWO_POINT_CAL cfg = true ->
  ~ (ADSX_CAL_P1_MEASURED cfg == ADSX_CAL_P2_MEASURED cfg)%Q ->
  let st' := setup cfg st in
  let slope := ((ADSX_CAL_P2_ACTUAL cfg - ADSX_CAL_P1_ACTUAL cfg) /
                (ADSX_CAL_P2_MEASURED cfg - ADSX_CAL_P1_MEASURED cfg))%Q in
  let offset := (ADSX_CAL_P1_ACTUAL cfg - slope * ADSX_CAL_P1_MEASURED cfg)%Q in
  g_cal_enabled st' = true /\ g_cal_slope st' = slope /\ g_cal_offset st' = offset /\
  (forall sample, g_range_code st' = ADSX_CAL_RANGE_CODE cfg ->
     adsxReadAveragedVolts cfg st' sample = (offset + slope * volts_raw cfg st' sample)%Q).
Proof.
  intros Hen Hne; cbv zeta.
  destruct (setup_cal_fit cfg st Hen (Qeq_bool_false_of_neq _ _ Hne)) as (E1 & E2 & E3).
  split; [exact E1 |]. split; [exact E2 |]. split; [exact E3 |].
  intros sample Hr.
  rewrite adsxReadAveragedVolts_branch; unfold cal_applies.
  rewrite Hen, E1, Hr, Z.eqb_refl, E2, E3; reflexivity.
Qed.

(** ** C5: round trip of the fit *)

(** Claim C5: for calibration points [(A1, M1)], [(A2, M2)] with [M1 <> M2],
    the model fitted by [setup] maps [M1] to [A1] and [M2] to [A2]
    (exactly, in the rational model of [float]). *)
Theorem two_point_fit_roundtrip (cfg : config) (st : state) :
  ADSX_ENABLE_TWO_POINT_CAL cfg = true ->
  ~ (ADSX_CAL_P1_MEASURED cfg == ADSX_CAL_P2_MEASURED cfg)%Q ->
  let st' := setup cfg st in
  (g_cal_offset st' + g_cal_slope st' * ADSX_CAL_P1_MEASURED cfg == ADSX_CAL_P1_ACTUAL cfg)%Q /\
  (g_cal_offset st' + g_cal_slope st' * ADSX_CAL_P2_MEASURED cfg == ADSX_CAL_P2_ACTUAL cfg)%Q.
Proof.
  intros Hen Hne; cbv zeta.
  destruct (setup_cal_fit cfg st Hen (Qeq_bool_false_of_neq _ _ Hne)) as (_ & E2 & E3).
  rewrite E2, E3.
  assert (Hd : ~ (ADSX_CAL_P2_MEASURED cfg - ADSX_CAL_P1_MEASURED cfg == 0)%Q).
  { intros H; apply Hne. apply (Qplus_inj_r _ _ (- ADSX_CAL_P1_MEASURED cfg)).
    rewrite Qplus_opp_r; symmetry; exact H. }
  split; field; exact Hd.
Qed.

(** ** C6: degenerate calibration points *)

(** Claim C6: when [p1_measured == p2_measured] the fit leaves calibration
    disabled, and with calibration disabled [adsxReadAveragedVolts] returns
    the uncorrected transfer-function output. *)
Theorem two_point_fit_degenerate (cfg : config) (st : state) :
  ADSX_ENABLE_TWO_POINT_CAL cfg = true ->
  (ADSX_CAL_P1_MEASURED cfg == ADSX_CAL_P2_MEASURED cfg)%Q ->
  g_cal_enabled (setup cfg st) = false /\
  (forall sample, adsxReadAveragedVolts cfg (setup cfg st) sample = volts_raw cfg (setup cfg st) sample) /\
  (forall st' sample, g_cal_enabled st' = false ->
     adsxReadAveragedVolts cfg st' sample = volts_raw cfg st' sample).
Proof.
  intros Hen Heq.
  assert (Hb : Qeq_bool (ADSX_CAL_P2_MEASURED cfg) (ADSX_CAL_P1_MEASURED cfg) = true)
    by (apply Qeq_bool_iff; apply Qeq_sym; exact Heq).
  destruct (setup_cal_degenerate cfg st Hen Hb) as (E & _).
  assert (Hoff : forall st' sample, g_cal_enabled st' = false ->
     adsxReadAveragedVolts cfg st' sample = volts_raw cfg st' sample).
  { intros st' sample H; rewrite adsxReadAveragedVolts_branch; unfold cal_applies.
    rewrite H, andb_false_r; reflexivity. }
  split; [exact E |]. split; [intros sample; apply Hoff; exact E | exact Hoff].
Qed.

(** ** C3: calibration under a different range *)

Lemma setup_serial_fit (cfg : config) (st : state) :
  ADSX_ENABLE_TWO_POINT_CAL cfg = true ->
  Qeq_bool (ADSX_CAL_P2_MEASURED cfg) (ADSX_CAL_P1_MEASURED cfg) = false ->
  serial (setup cfg st) =
  serial st ++
  [MsgCalEnabled; MsgCalRangeCode (ADSX_CAL_RANGE_CODE cfg);
   MsgCalSlope (g_cal_slope (setup cfg st)); MsgCalOffset (g_cal_offset (setup cfg st))] ++
  (if Z.eqb (Z.land (g_range_code st) 15) (ADSX_CAL_RANGE_CODE cfg) then [] else [MsgCalRangeWarning]) ++
  [MsgConfigured (ADSX_BITS cfg)].
Proof.
  intros Hen Hne.
  unfold setup, setup_cal, adsxSetVrefVolts; rewrite Hen, Hne.
  destruct (Qlt_le_dec 0 (Qmake 4096 1000)); simpl;
  destruct (Z.land (g_range_code st) 15 =? ADSX_CAL_RANGE_CODE cfg); simpl;
  rewrite <- !app_assoc; reflexivity.
Qed.

(** A device that returns code 0 on every read. *)
Definition zero_sample : nat -> Z := fun _ => 0.

(** Calibration enabled at power-up, then the range switched to +-2.5 x VREF. *)
Definition st_other_range : state :=
  adsxSetRange (after_setup cal_config) ADSX_RANGE_BIPOLAR_2P5X true.

(** Counterexample to claim C3: with calibration enabled and the active range
    ([ADSX_RANGE_BIPOLAR_2P5X]) different from the calibration range
    ([ADSX_RANGE_BIPOLAR_3X]), [adsxReadAveragedVolts] does not return the
    corrected value [offset + slope * volts_raw]: the correction is skipped. *)
Lemma range_mismatch_skips_correction :
  reachable cal_config st_other_range /\
  ADSX_ENABLE_TWO_POINT_CAL cal_config = true /\
  g_cal_enabled st_other_range = true /\
  g_range_code st_other_range <> ADSX_CAL_RANGE_CODE cal_config /\
  adsxReadAveragedVolts cal_config st_other_range zero_sample =
    volts_raw cal_config st_other_range zero_sample /\
  ~ (adsxReadAveragedVolts cal_config st_other_range zero_sample ==
     g_cal_offset st_other_range + g_cal_slope st_other_range *
       volts_raw cal_config st_other_range zero_sample)%Q.
Proof.
  split.
  { eapply reach_step; [eapply reach_step; [apply reach_init | apply step_setup] |].
    apply step_setRange; unfold ADSX_RANGE_BIPOLAR_2P5X; lia. }
  split; [reflexivity |].
  split; [vm_compute; reflexivity |].
  split; [vm_compute; discriminate |].
  split; [vm_compute; reflexivity |].
  intros H; apply Qeq_bool_iff in H; vm_compute in H; discriminate H.
Qed.

(** Claim C3 (as amended): with calibration compiled in and enabled,
    [adsxReadAveragedVolts] applies the correction only when the active range
    code equals [ADSX_CAL_RANGE_CODE] and otherwise returns the uncorrected
    voltage; the range mismatch is reported only by [setup], which prints a
    warning when the range it configures differs from the calibration range. *)
Theorem cal_applied_only_on_cal_range (cfg : config) :
  ADSX_ENABLE_TWO_POINT_CAL cfg = true ->
  (forall st sample, g_cal_enabled st = true ->
     adsxReadAveragedVolts cfg st sample =
     if Z.eqb (g_range_code st) (ADSX_CAL_RANGE_CODE cfg)
     then (g_cal_offset st + g_cal_slope st * volts_raw cfg st sample)%Q
     else volts_raw cfg st sample) /\
  (forall st, ~ (ADSX_CAL_P1_MEASURED cfg == ADSX_CAL_P2_MEASURED cfg)%Q ->
     serial (setup cfg st) =
     serial st ++
     [MsgCalEnabled; MsgCalRangeCode (ADSX_CAL_RANGE_CODE cfg);
      MsgCalSlope (g_cal_slope (setup cfg st)); MsgCalOffset (g_cal_offset (setup cfg st))] ++
     (if Z.eqb (Z.land (g_range_code st) 15) (ADSX_CAL_RANGE_CODE cfg)
      then [] else [MsgCalRangeWarning]) ++
     [MsgConfigured (ADSX_BITS cfg)]).
Proof.
  intros Hen; split.
  - intros st sample He.
    rewrite adsxReadAveragedVolts_branch; unfold cal_applies; rewrite Hen, He; reflexivity.
  - intros st Hne.
    exact (setup_serial_fit cfg st Hen (Qeq_bool_false_of_neq _ _ Hne)).
Qed.

(** ** C4: averaging, the truncated code *)

(** The mathematical sum of the codes read in iterations [i .. i+k-1]. *)
Definition sum_codes (cfg : config) (sample : nat -> Z) (i k : nat) : Z :=
  fold_right Z.add 0 (map (fun j => adsxReadCodeNbits cfg (sample j)) (seq i k)).

Lemma accumulate_sum (cfg : config) (sample : nat -> Z) (k : nat) :
  forall i acc, 0 <= acc < 2 ^ 32 ->
  accumulate cfg sample i k acc = (acc + sum_codes cfg sample i k) mod 2 ^ 32.
Proof.
  induction k as [| k IH]; intros i acc Hacc.
  - unfold sum_codes; simpl; rewrite Z.add_0_r, Z.mod_small by exact Hacc; reflexivity.
  - simpl accumulate; rewrite IH by (apply Z.mod_pos_bound; lia).
    unfold add_u32, sum_codes; simpl.
    rewrite Zplus_mod_idemp_l; f_equal; lia.
Qed.

Lemma float_to_uint32_div (a : Z) (p : positive) :
  0 <= a -> float_to_uint32 (inject_Z a / inject_Z (Zpos p))%Q = a / Zpos p.
Proof.
  intros Ha; unfold float_to_uint32; simpl.
  rewrite Z.mul_1_r; apply Z.quot_div_nonneg; lia.
Qed.

Lemma num_samples_pos (st : state) : 1 <= num_samples st.
Proof. unfold num_samples; destruct (Z.ltb_spec (g_num_averages st) 1); lia. Qed.

(** Six reads of code 1 followed by six reads of code 0 (16-bit part: the
    code sits in the upper half-word). *)
Definition half_sample : nat -> Z := fun i => if Nat.ltb i 6 then 65536 else 0.

(** Counterexample to claim C4: in the shipped sketch (12 averages, range
    +-3 x VREF), six codes 1 and six codes 0 average to exactly 0.5, but
    [adsxReadAveragedVolts] converts the truncated code 0, so its result is
    not the transfer function at the average 0.5. *)
Lemma averaged_code_truncated :
  num_samples init_state = 12 /\
  (adsx_avg_code shipped_config init_state half_sample == Qmake 1 2)%Q /\
  adsxReadAveragedVolts shipped_config init_state half_sample =
    adsxCodeToVolts shipped_config init_state 0 /\
  ~ (adsxReadAveragedVolts shipped_config init_state half_sample ==
     spec_codeToVoltage shipped_config init_state (Qmake 1 2))%Q.
Proof.
  split; [reflexivity |].
  split; [vm_compute; reflexivity |].
  split; [vm_compute; reflexivity |].
  intros H; apply Qeq_bool_iff in H; vm_compute in H; discriminate H.
Qed.

(** ** Witnesses: the theorems at concrete inputs *)

(** The 18-bit build (ADS869x). *)
Definition config18 : config := {|
  ADSX_BITS := 18;
  ADSX_ENABLE_TWO_POINT_CAL := false;
  ADSX_CAL_RANGE_CODE := ADSX_RANGE_BIPOLAR_3X;
  ADSX_CAL_P1_ACTUAL := Qmake (-100002) 10000;
  ADSX_CAL_P1_MEASURED := Qmake (-100017) 10000;
  ADSX_CAL_P2_ACTUAL := Qmake 100027 10000;
  ADSX_CAL_P2_MEASURED := Qmake 100045 10000
|}.

(** Calibration enabled with two points measured at the same voltage. *)
Definition degenerate_config : config := {|
  ADSX_BITS := 16;
  ADSX_ENABLE_TWO_POINT_CAL := true;
  ADSX_CAL_RANGE_CODE := ADSX_RANGE_BIPOLAR_3X;
  ADSX_CAL_P1_ACTUAL := Qmake (-100002) 10000;
  ADSX_CAL_P1_MEASURED := Qmake 100045 10000;
  ADSX_CAL_P2_ACTUAL := Qmake 100027 10000;
  ADSX_CAL_P2_MEASURED := Qmake 100045 10000
|}.

Lemma cal_points_distinct :
  ~ (ADSX_CAL_P1_MEASURED cal_config == ADSX_CAL_P2_MEASURED cal_config)%Q.
Proof. intros H; apply Qeq_bool_iff in H; vm_compute in H; discriminate H. Qed.

Lemma adsxCodeToVolts_formula_witness :
  config_ok shipped_config /\ 0 <= 32768 <= 2 ^ 16 - 1 /\
  (adsxCodeToVolts shipped_config init_state 32768 ==
   spec_codeToVoltage shipped_config init_state (inject_Z 32768))%Q.
Proof.
  split; [left; reflexivity |]. split; [lia |].
  apply adsxCodeToVolts_formula; [left; reflexivity | cbn; lia].
Defined.

Lemma two_point_fit_witness :
  ADSX_ENABLE_TWO_POINT_CAL cal_config = true /\
  ~ (ADSX_CAL_P1_MEASURED cal_config == ADSX_CAL_P2_MEASURED cal_config)%Q /\
  g_cal_enabled (setup cal_config init_state) = true.
Proof.
  split; [reflexivity |]. split; [exact cal_points_distinct |].
  exact (proj1 (two_point_fit cal_config init_state eq_refl cal_points_distinct)).
Defined.

Lemma cal_applied_only_on_cal_range_witness :
  ADSX_ENABLE_TWO_POINT_CAL cal_config = true /\
  g_cal_enabled st_other_range = true /\
  adsxReadAveragedVolts cal_config st_other_range zero_sample =
    volts_raw cal_config st_other_range zero_sample.
Proof.
  split; [reflexivity |]. split; [vm_compute; reflexivity |].
  rewrite (proj1 (cal_applied_only_on_cal_range cal_config eq_refl) st_other_range zero_sample)
    by (vm_compute; reflexivity).
  reflexivity.
Defined.

Lemma two_point_fit_roundtrip_witness :
  ADSX_ENABLE_TWO_POINT_CAL cal_config = true /\
  ~ (ADSX_CAL_P1_MEASURED cal_config == ADSX_CAL_P2_MEASURED cal_config)%Q /\
  (g_cal_offset (setup cal_config init_state) +
   g_cal_slope (setup cal_config init_state) * Qmake (-100017) 10000 == Qmake (-100002) 10000)%Q.
Proof.
  split; [reflexivity |]. split; [exact cal_points_distinct |].
  exact (proj1 (two_point_fit_roundtrip cal_config init_state eq_refl cal_points_distinct)).
Defined.

Lemma two_point_fit_degenerate_witness :
  ADSX_ENABLE_TWO_POINT_CAL degenerate_config = true /\
  (ADSX_CAL_P1_MEASURED degenerate_config == ADSX_CAL_P2_MEASURED degenerate_config)%Q /\
  g_cal_enabled (setup degenerate_config init_state) = false.
Proof.
  split; [reflexivity |]. split; [reflexivity |].
  exact (proj1 (two_point_fit_degenerate degenerate_config init_state eq_refl (Qeq_refl _))).
Defined.

Lemma adsxCodeToVolts_clamps_above_witness :
  config_ok config18 /\
  adsxCodeToVolts config18 init_state (2 ^ 18) = adsxCodeToVolts config18 init_state (2 ^ 18 - 1).
Proof.
  split; [right; reflexivity |].
  exact (proj2 (adsxCodeToVolts_clamps_above config18 init_state (or_intror eq_refl))).
Defined.

Lemma adsxCodeToVolts_bipolar_witness :
  config_ok shipped_config /\ reachable shipped_config init_state /\
  snd (adsxRangeMultiplier (g_range_code init_state)) = true /\
  (adsxCodeToVolts shipped_config init_state 0 < adsxCodeToVolts shipped_config init_state 1)%Q.
Proof.
  split; [left; reflexivity |]. split; [apply reach_init |]. split; [reflexivity |].
  apply (proj2 (adsxCodeToVolts_bipolar shipped_config init_state
                  (or_introl eq_refl) (reach_init shipped_config) eq_refl)); cbn; lia.
Defined.

Lemma adsxReadCodeNbits_no_clamp_witness :
  config_ok shipped_config /\
  0 <= adsxReadCodeNbits shipped_config 4294967295 <= 2 ^ 16 - 1 /\
  adsx_clamp shipped_config (adsxReadCodeNbits shipped_config 4294967295) =
    adsxReadCodeNbits shipped_config 4294967295.
Proof.
  split; [left; reflexivity |].
  exact (adsxReadCodeNbits_no_clamp shipped_config 4294967295 (or_introl eq_refl)).
Defined.

(** * SPI framing *)

(** [(uint8_t)x] *)
Definition u8 (x : Z) : Z := x mod 256.

(** [xfer32]: the frame sent is [b0 b1 b2 b3] (each an [uint8_t]); the word
    returned assembles the bytes [r0 .. r3] clocked back, MSB first:
    [((uint32_t)r0<<24) | ((uint32_t)r1<<16) | ((uint32_t)r2<<8) | r3]. *)
Definition xfer32_word (r0 r1 r2 r3 : Z) : Z :=
  Z.lor (Z.lor (Z.lor (Z.shiftl r0 24) (Z.shiftl r1 16)) (Z.shiftl r2 8)) r3.

Definition xfer32_frame (b0 b1 b2 b3 : Z) : list Z := [u8 b0; u8 b1; u8 b2; u8 b3].

(** [frameNOP]: [xfer32(0x00,0x00,0x00,0x00)] *)
Definition frameNOP_frame : list Z := xfer32_frame 0 0 0 0.

(** [writeRegHWord]: [xfer32(0xD0, addr, (uint8_t)(data >> 8), (uint8_t)(data & 0xFF))] *)
Definition writeRegHWord_frame (addr data : Z) : list Z :=
  xfer32_frame 208 (u8 addr) (u8 (Z.shiftr data 8)) (u8 (Z.land data 255)).

Definition ADSX_REG_RANGE_SEL : Z := 20.   (* 0x14 *)
Definition ADSX_INTREF_ENABLE : Z := 0.    (* 0x0000 *)
Definition ADSX_INTREF_DISABLE : Z := 64.  (* 0x0040 *)

(** The [uint16_t data] that [adsxSetRange] writes to RANGE_SEL. *)
Definition adsxSetRange_data (range_code : Z) (useInternalRef : bool) : Z :=
  Z.lor (Z.land range_code 15)
        (if useInternalRef then ADSX_INTREF_ENABLE else ADSX_INTREF_DISABLE).

(** The frames [adsxSetRange] clocks out: the register write, then the two
    NOP frames of the dummy conversion. *)
Definition adsxSetRange_frames (range_code : Z) (useInternalRef : bool) : list (list Z) :=
  [writeRegHWord_frame ADSX_REG_RANGE_SEL (adsxSetRange_data range_code useInternalRef);
   frameNOP_frame; frameNOP_frame].

(** [adsxReadCodeRaw32]: two NOP frames; the word returned is the reply to the
    second one (the reply to the first is dropped). *)
Definition adsxReadCodeRaw32 (first second : Z * Z * Z * Z) : Z :=
  let '(r0, r1, r2, r3) := second in xfer32_word r0 r1 r2 r3.

(** ** Bit-level helpers *)

Lemma lor_disjoint (x y : Z) : Z.land x y = 0 -> Z.lor x y = x + y.
Proof.
  intros H; rewrite <- (Z.lxor_lor x y H); symmetry; apply Z.add_nocarry_lxor; exact H.
Qed.

Lemma small_bits_high (r k n : Z) : 0 <= k -> 0 <= r < 2 ^ k -> k <= n -> Z.testbit r n = false.
Proof.
  intros Hk Hr Hn; rewrite <- (Z.mod_small r (2 ^ k)) by exact Hr.
  apply Z.mod_pow2_bits_high; lia.
Qed.

Definition is_byte (r : Z) : Prop := 0 <= r < 256.

Ltac bit_cases n t :=
  destruct (Z.lt_ge_cases n t);
  repeat first [ rewrite Z.shiftl_spec_low by lia
               | rewrite (Z.shiftl_spec _ _ n) by lia ];
  repeat match goal with
         | H : is_byte ?r |- context [Z.testbit ?r ?m] =>
             rewrite (small_bits_high r 8 m) by (unfold is_byte in H; lia)
         | |- context [Z.testbit ?r ?m] => rewrite (Z.testbit_neg_r r m) by lia
         end;
  rewrite ?Bool.orb_false_r, ?Bool.orb_false_l, ?Bool.andb_false_r, ?Bool.andb_false_l;
  try reflexivity.

Lemma xfer32_word_value (r0 r1 r2 r3 : Z) :
  is_byte r0 -> is_byte r1 -> is_byte r2 -> is_byte r3 ->
  xfer32_word r0 r1 r2 r3 = r0 * 2 ^ 24 + r1 * 2 ^ 16 + r2 * 2 ^ 8 + r3.
Proof.
  intros H0 H1 H2 H3; unfold xfer32_word.
  rewrite lor_disjoint.
  2:{ apply Z.bits_inj'; intros n Hn; rewrite Z.land_spec, !Z.lor_spec, Z.bits_0.
      bit_cases n 8; bit_cases n 16; bit_cases n 24. }
  rewrite lor_disjoint.
  2:{ apply Z.bits_inj'; intros n Hn; rewrite Z.land_spec, !Z.lor_spec, Z.bits_0.
      bit_cases n 8; bit_cases n 16; bit_cases n 24. }
  rewrite lor_disjoint.
  2:{ apply Z.bits_inj'; intros n Hn; rewrite Z.land_spec, Z.bits_0.
      bit_cases n 16; bit_cases n 24. }
  rewrite !Z.shiftl_mul_pow2 by lia; ring.
Qed.

Lemma div_pow2_eq (a q r k : Z) :
  0 <= k -> 0 <= r < 2 ^ k -> a = 2 ^ k * q + r -> a / 2 ^ k = q.
Proof. intros Hk Hr Ha; symmetry; apply Z.div_unique_pos with r; assumption. Qed.

Lemma mod_eq (a q r b : Z) : 0 <= r < b -> a = b * q + r -> a mod b = r.
Proof. intros Hr Ha; symmetry; apply Z.mod_unique_pos with q; assumption. Qed.

(** ** X1: the word assembled by [xfer32] *)

(** [xfer32] packs the four reply bytes into a 32-bit word, MSB first, and
    each byte is recovered from the word by shifting and truncating to
    [uint8_t]. *)
Theorem xfer32_word_bytes (r0 r1 r2 r3 : Z) :
  is_byte r0 -> is_byte r1 -> is_byte r2 -> is_byte r3 ->
  let w := xfer32_word r0 r1 r2 r3 in
  0 <= w < 2 ^ 32 /\
  u8 (Z.shiftr w 24) = r0 /\ u8 (Z.shiftr w 16) = r1 /\
  u8 (Z.shiftr w 8) = r2 /\ u8 w = r3.
Proof.
  intros H0 H1 H2 H3; cbv zeta.
  rewrite xfer32_word_value by assumption.
  unfold is_byte, u8 in *.
  rewrite !Z.shiftr_div_pow2 by lia.
  split; [lia |].
  split; [rewrite (div_pow2_eq _ r0 (r1 * 2 ^ 16 + r2 * 2 ^ 8 + r3)) by lia;
          apply Z.mod_small; lia |].
  split; [rewrite (div_pow2_eq _ (r0 * 2 ^ 8 + r1) (r2 * 2 ^ 8 + r3)) by lia;
          apply (mod_eq _ r0); lia |].
  split; [rewrite (div_pow2_eq _ (r0 * 2 ^ 16 + r1 * 2 ^ 8 + r2) r3) by lia;
          apply (mod_eq _ (r0 * 2 ^ 8 + r1)); lia |].
  apply (mod_eq _ (r0 * 2 ^ 16 + r1 * 2 ^ 8 + r2)); lia.
Qed.

(** ** X2: the register-write frame *)

(** For a register address byte and a 16-bit payload, [writeRegHWord] sends
    the opcode 0xD0, the address, and the payload high byte then low byte;
    read as a 32-bit word MSB first, the frame is [0xD0 << 24 | addr << 16 | data]. *)
Theorem writeRegHWord_frame_encoding (addr data : Z) :
  is_byte addr -> 0 <= data < 2 ^ 16 ->
  writeRegHWord_frame addr data = [208; addr; data / 256; data mod 256] /\
  xfer32_word 208 addr (data / 256) (data mod 256) = 208 * 2 ^ 24 + addr * 2 ^ 16 + data.
Proof.
  intros Ha Hd; unfold is_byte in Ha.
  assert (Hhi : 0 <= data / 256 < 256) by (split; [apply Z.div_pos | apply Z.div_lt_upper_bound]; lia).
  assert (Hlo : 0 <= data mod 256 < 256) by (apply Z.mod_pos_bound; lia).
  split.
  - unfold writeRegHWord_frame, xfer32_frame, u8.
    rewrite Z.shiftr_div_pow2 by lia.
    change 255 with (Z.ones 8); rewrite Z.land_ones by lia.
    change (2 ^ 8) with 256.
    rewrite (Z.mod_small 208 256) by lia.
    rewrite !(Z.mod_small addr 256) by lia.
    rewrite !(Z.mod_small (data / 256) 256) by lia.
    rewrite Z.mod_mod by lia.
    rewrite (Z.mod_small (data mod 256) 256) by exact Hlo.
    reflexivity.
  - rewrite xfer32_word_value by (unfold is_byte; lia).
    pose proof (Z.div_mod data 256 ltac:(lia)); lia.
Qed.

Lemma land15_bounds (rc : Z) : 0 <= Z.land rc 15 < 16.
Proof.
  change 15 with (Z.ones 4); rewrite Z.land_ones by lia.
  apply Z.mod_pos_bound; lia.
Qed.

(** ** X3: what [adsxSetRange] writes to the device *)

(** [adsxSetRange] sends the register write [0xD0, 0x14, 0x00, data] followed
    by two NOP frames; the payload [data] is below 0x80, its low nibble is the
    range code the sketch records in [g_range_code], and its bit 6 (INTREF_DIS)
    is set exactly when the internal reference is not used. *)
Theorem adsxSetRange_register_payload (st : state) (rc : Z) (b : bool) :
  let data := adsxSetRange_data rc b in
  adsxSetRange_frames rc b = [[208; 20; 0; data]; [0; 0; 0; 0]; [0; 0; 0; 0]] /\
  0 <= data < 128 /\
  Z.land data 15 = g_range_code (adsxSetRange st rc b) /\
  Z.testbit data 6 = negb b /\
  g_useInternalRef (adsxSetRange st rc b) = b.
Proof.
  cbv zeta.
  unfold adsxSetRange_frames, adsxSetRange_data, adsxSetRange,
         writeRegHWord_frame, frameNOP_frame, xfer32_frame, u8.
  cbn [g_range_code g_useInternalRef].
  pose proof (land15_bounds rc) as Hx; revert Hx.
  generalize (Z.land rc 15); intros x Hx.
  assert (x = 0 \/ x = 1 \/ x = 2 \/ x = 3 \/ x = 4 \/ x = 5 \/ x = 6 \/ x = 7 \/
          x = 8 \/ x = 9 \/ x = 10 \/ x = 11 \/ x = 12 \/ x = 13 \/ x = 14 \/ x = 15)
    as Hcases by lia.
  repeat destruct Hcases as [-> | Hcases]; try (subst x);
  destruct b; vm_compute; repeat split; discriminate.
Qed.

(** ** X4: only the low nibble of the range argument matters *)

(** [adsxSetRange] ignores all but the low four bits of its range argument
    (the frames sent and the globals set are the same for [rc] and
    [rc & 0xF]), and a second call overrides the first. *)
Theorem adsxSetRange_low_nibble (st : state) (rc rc2 : Z) (b b2 : bool) :
  adsxSetRange st (Z.land rc 15) b = adsxSetRange st rc b /\
  adsxSetRange_frames (Z.land rc 15) b = adsxSetRange_frames rc b /\
  adsxSetRange (adsxSetRange st rc b) rc2 b2 = adsxSetRange st rc2 b2.
Proof.
  assert (E : Z.land (Z.land rc 15) 15 = Z.land rc 15)
    by (rewrite <- Z.land_assoc, Z.land_diag; reflexivity).
  unfold adsxSetRange, adsxSetRange_frames, adsxSetRange_data; rewrite E.
  repeat split.
Qed.

(** ** X5: the code carried by the reply bytes *)

(** The code [adsxReadCodeNbits] extracts from the word [adsxReadCodeRaw32]
    reads back is, on a 16-bit part, the first two reply bytes
    ([r0 * 256 + r1]) and, on an 18-bit part, the first two bytes and the top
    two bits of the third ([r0 * 1024 + r1 * 4 + r2 / 64]); the reply to the
    first NOP frame is never used. *)
Theorem adsxReadCodeNbits_of_reply (cfg : config) (first : Z * Z * Z * Z) (r0 r1 r2 r3 : Z) :
  is_byte r0 -> is_byte r1 -> is_byte r2 -> is_byte r3 ->
  (ADSX_BITS cfg = 16 ->
     adsxReadCodeNbits cfg (adsxReadCodeRaw32 first (r0, r1, r2, r3)) = r0 * 256 + r1) /\
  (ADSX_BITS cfg = 18 ->
     adsxReadCodeNbits cfg (adsxReadCodeRaw32 first (r0, r1, r2, r3)) = r0 * 1024 + r1 * 4 + r2 / 64).
Proof.
  intros H0 H1 H2 H3.
  unfold adsxReadCodeRaw32; rewrite xfer32_word_value by assumption.
  unfold is_byte in *.
  unfold adsxReadCodeNbits, ADSX_CODE_SHIFT, ADSX_CODE_MASK.
  split; intros Hb; rewrite Hb; cbn [Z.eqb Pos.eqb].
  - change 65535 with (Z.ones 16); rewrite Z.land_ones, Z.shiftr_div_pow2 by lia.
    rewrite (div_pow2_eq _ (r0 * 256 + r1) (r2 * 2 ^ 8 + r3)) by lia.
    apply Z.mod_small; lia.
  - change 262143 with (Z.ones 18); rewrite Z.land_ones, Z.shiftr_div_pow2 by lia.
    pose proof (Z.div_mod r2 64 ltac:(lia)) as Hd.
    pose proof (Z.mod_pos_bound r2 64 ltac:(lia)) as Hm.
    assert (0 <= r2 / 64 < 4) by (split; [apply Z.div_pos | apply Z.div_lt_upper_bound]; lia).
    rewrite (div_pow2_eq _ (r0 * 1024 + r1 * 4 + r2 / 64) (r2 mod 64 * 2 ^ 8 + r3)) by lia.
    apply Z.mod_small; lia.
Qed.

(** * The transfer function, further *)

(** ** X6: the range table *)

(** [adsxRangeMultiplier] reports a bipolar range exactly for the selector
    values 0 to 4 (low nibble); the unlisted selectors 5, 6, 7 and 12 to 15
    fall back to the same descriptor as [ADSX_RANGE_UNIPOLAR_1P25X]; and every
    multiplier lies in [0.625, 3]. *)
Theorem adsxRangeMultiplier_table (code : Z) :
  snd (adsxRangeMultiplier code) = Z.ltb (Z.land code 15) 5 /\
  ((4 < Z.land code 15 < 8 \/ 11 < Z.land code 15) ->
     adsxRangeMultiplier code = adsxRangeMultiplier ADSX_RANGE_UNIPOLAR_1P25X) /\
  (Qmake 5 8 <= fst (adsxRangeMultiplier code) <= 3)%Q.
Proof.
  unfold adsxRangeMultiplier.
  pose proof (land15_bounds code) as Hx; revert Hx.
  generalize (Z.land code 15); intros x Hx.
  assert (x = 0 \/ x = 1 \/ x = 2 \/ x = 3 \/ x = 4 \/ x = 5 \/ x = 6 \/ x = 7 \/
          x = 8 \/ x = 9 \/ x = 10 \/ x = 11 \/ x = 12 \/ x = 13 \/ x = 14 \/ x = 15)
    as Hcases by lia.
  repeat destruct Hcases as [-> | Hcases]; try (subst x);
  (split; [reflexivity | split; [intros; first [reflexivity | lia] | split; vm_compute; discriminate]]).
Qed.

(** ** X7: outputs stay within full scale *)

(** In every reachable state, for every [uint32_t] code (in range or
    clamped), [adsxCodeToVolts] returns a value in [[NFS, PFS)]: at least the
    negative full scale ([-PFS] or 0) and strictly below the positive full
    scale [PFS = multiplier * vref]. *)
Theorem adsxCodeToVolts_within_full_scale (cfg : config) (st : state) (code : Z) :
  config_ok cfg -> reachable cfg st -> 0 <= code ->
  let '(mult, bipolar) := adsxRangeMultiplier (g_range_code st) in
  ((if bipolar then - (mult * g_vref_volts st) else 0) <= adsxCodeToVolts cfg st code /\
   adsxCodeToVolts cfg st code < mult * g_vref_volts st)%Q.
Proof.
  intros Hok Hr Hc.
  pose proof (vref_pos_reachable cfg st Hr) as Hv.
  pose proof (adsxRangeMultiplier_pos (g_range_code st)) as Hm.
  pose proof (pow2_bits_pos cfg Hok) as Hp.
  assert (Hcl : 0 <= adsx_clamp cfg code <= ADSX_CODE_MASK cfg).
  { unfold adsx_clamp, ADSX_CODE_MASK.
    destruct (Z.gtb_spec code (if ADSX_BITS cfg =? 18 then 262143 else 65535));
    destruct (ADSX_BITS cfg =? 18); lia. }
  rewrite (code_mask_eq cfg Hok) in Hcl.
  assert (HcP : (inject_Z (adsx_clamp cfg code) < inject_Z (Z.shiftl 1 (ADSX_BITS cfg)))%Q).
  { rewrite <- Zlt_Qlt, Z.shiftl_1_l; lia. }
  assert (Hc0 : (0 <= inject_Z (adsx_clamp cfg code))%Q).
  { change 0%Q with (inject_Z 0); rewrite <- Zle_Qle; lia. }
  unfold adsxCodeToVolts.
  destruct (adsxRangeMultiplier (g_range_code st)) as [m b]; simpl in Hm.
  set (V := g_vref_volts st) in *.
  set (P := inject_Z (Z.shiftl 1 (ADSX_BITS cfg))) in *.
  set (c := inject_Z (adsx_clamp cfg code)) in *.
  assert (HmV : (0 < m * V)%Q) by (apply Qmult_lt_0_compat; assumption).
  set (F := (m * V - (if b then - (m * V) else 0))%Q).
  assert (HF : (0 < F)%Q) by (unfold F; destruct b; lra).
  assert (HL : (0 <= c * (F / P))%Q).
  { apply Qmult_le_0_compat; [exact Hc0 |].
    apply Qle_shift_div_l; [exact Hp | setoid_replace (0 * P)%Q with 0%Q by ring; lra]. }
  assert (HU : (c * (F / P) < F)%Q).
  { setoid_replace (c * (F / P))%Q with ((c * F) / P)%Q by (field; lra).
    apply Qlt_shift_div_r; [exact Hp |].
    setoid_replace (F * P)%Q with (P * F)%Q by ring.
    apply Qmult_lt_compat_r; assumption. }
  fold F; destruct b; unfold F in *; split; lra.
Qed.

(** ** X8: end points and mid-scale *)

(** For either resolution, code 0 converts to the negative full scale
    [NFS], the top code [2^N - 1] converts to [PFS - LSB], and on a bipolar
    range the mid-scale code [2^(N-1)] converts to exactly 0 V. *)
Theorem adsxCodeToVolts_end_points (cfg : config) (st : state) :
  config_ok cfg ->
  let '(mult, bipolar) := adsxRangeMultiplier (g_range_code st) in
  let PFS := (mult * g_vref_volts st)%Q in
  let NFS := (if bipolar then - PFS else 0)%Q in
  let LSB := ((PFS - NFS) / inject_Z (2 ^ ADSX_BITS cfg))%Q in
  (adsxCodeToVolts cfg st 0 == NFS)%Q /\
  (adsxCodeToVolts cfg st (2 ^ ADSX_BITS cfg - 1) == PFS - LSB)%Q /\
  (bipolar = true -> adsxCodeToVolts cfg st (2 ^ (ADSX_BITS cfg - 1)) == 0)%Q.
Proof.
  intros Hok.
  assert (Hin : forall c, 0 <= c <= 2 ^ ADSX_BITS cfg - 1 -> adsx_clamp cfg c = c)
    by (intros c Hc; apply adsx_clamp_in_range; rewrite code_mask_eq by exact Hok; lia).
  unfold adsxCodeToVolts.
  rewrite !Hin.
  2:{ destruct Hok as [H | H]; rewrite H; cbn; lia. }
  2:{ destruct Hok as [H | H]; rewrite H; cbn; lia. }
  2:{ destruct Hok as [H | H]; rewrite H; cbn; lia. }
  destruct (adsxRangeMultiplier (g_range_code st)) as [m b].
  destruct Hok as [H | H]; rewrite H; cbn -[Qmult Qplus Qminus Qopp Qdiv];
  (split; [| split]); [ring | | | ring | |]; try (intros ->); field.
Qed.

(** * Averaging, further *)

Lemma avg_code_trunc_eq (cfg : config) (st : state) (sample : nat -> Z) :
  float_to_uint32 (adsx_avg_code cfg st sample) =
  (sum_codes cfg sample 0 (Z.to_nat (num_samples st)) mod 2 ^ 32) / num_samples st.
Proof.
  unfold adsx_avg_code.
  rewrite accumulate_sum by lia; rewrite Z.add_0_l.
  pose proof (num_samples_pos st) as Hn.
  destruct (num_samples st) as [| p | p]; try lia.
  apply float_to_uint32_div; apply Z.mod_pos_bound; lia.
Qed.

Lemma sum_codes_bounds (cfg : config) (sample : nat -> Z) (k : nat) :
  config_ok cfg ->
  forall i, 0 <= sum_codes cfg sample i k <= Z.of_nat k * ADSX_CODE_MASK cfg.
Proof.
  intros Hok; induction k as [| k IH]; intros i.
  - unfold sum_codes; simpl; lia.
  - unfold sum_codes in *; rewrite Nat2Z.inj_succ; cbn [seq map fold_right].
    pose proof (adsxReadCodeNbits_bounds cfg (sample i) Hok).
    specialize (IH (S i)); nia.
Qed.

Lemma sum_codes_const (cfg : config) (sample : nat -> Z) (c : Z) (k : nat) :
  forall i, (forall j, (i <= j < i + k)%nat -> adsxReadCodeNbits cfg (sample j) = c) ->
  sum_codes cfg sample i k = Z.of_nat k * c.
Proof.
  induction k as [| k IH]; intros i H.
  - reflexivity.
  - unfold sum_codes in *; rewrite Nat2Z.inj_succ; cbn [seq map fold_right].
    rewrite (H i) by lia.
    rewrite (IH (S i)) by (intros j Hj; apply H; lia).
    lia.
Qed.

(** ** X10: the averaged code never reaches the clamp *)

(** Whatever the device returns (even when the [uint32_t] accumulator
    wraps), the truncated average that [adsxReadAveragedVolts] passes to
    [adsxCodeToVolts] lies in [[0, 2^N - 1]], so the clamp leaves it unchanged. *)
Theorem averaged_code_in_range (cfg : config) (st : state) (sample : nat -> Z) :
  config_ok cfg ->
  let code := float_to_uint32 (adsx_avg_code cfg st sample) in
  0 <= code <= 2 ^ ADSX_BITS cfg - 1 /\ adsx_clamp cfg code = code.
Proof.
  intros Hok; cbv zeta.
  rewrite avg_code_trunc_eq.
  pose proof (num_samples_pos st) as Hn.
  set (n := num_samples st) in *.
  pose proof (sum_codes_bounds cfg sample (Z.to_nat n) Hok 0) as Hs.
  rewrite Z2Nat.id in Hs by lia.
  set (S := sum_codes cfg sample 0 (Z.to_nat n)) in *.
  pose proof (Z.mod_pos_bound S (2 ^ 32) ltac:(lia)).
  pose proof (Z.mod_le S (2 ^ 32) ltac:(lia) ltac:(lia)).
  assert (Hup : (S mod 2 ^ 32) / n <= ADSX_CODE_MASK cfg)
    by (apply Z.div_le_upper_bound; lia).
  assert (Hlo : 0 <= (S mod 2 ^ 32) / n) by (apply Z.div_pos; lia).
  rewrite (code_mask_eq cfg Hok) in Hup.
  split; [lia |].
  apply adsx_clamp_in_range; rewrite (code_mask_eq cfg Hok); lia.
Qed.

(** * Executions, further *)

Ltac split_ifs :=
  repeat match goal with
         | |- context [if ?c then _ else _] => destruct c
         end.

Lemma setup_num_averages (cfg : config) (st : state) :
  g_num_averages (setup cfg st) = g_num_averages st.
Proof.
  unfold setup, setup_cal, adsxSetVrefVolts, print, set_cal, adsxSetRange.
  split_ifs; reflexivity.
Qed.

Lemma setup_cal_disabled_build (cfg : config) (st : state) :
  ADSX_ENABLE_TWO_POINT_CAL cfg = false -> g_cal_enabled (setup cfg st) = false.
Proof.
  intros H; unfold setup, setup_cal; rewrite H; reflexivity.
Qed.

(** The globals only [setup] and [adsxSetRange] may change stay in range. *)
Definition globals_inv (cfg : config) (st : state) : Prop :=
  g_num_averages st = 12 /\ 0 <= g_range_code st <= 15 /\
  (ADSX_ENABLE_TWO_POINT_CAL cfg = false -> g_cal_enabled st = false).

Lemma globals_inv_step (cfg : config) (st st' : state) :
  step cfg st st' -> globals_inv cfg st -> globals_inv cfg st'.
Proof.
  intros Hs (Hn & Hr & Hc); destruct Hs as [st0 | st0 sample | st0 v | st0 rc b _].
  - split; [rewrite setup_num_averages; exact Hn |].
    split; [rewrite setup_range; pose proof (land15_bounds (g_range_code st0)); lia |].
    apply setup_cal_disabled_build.
  - unfold loop, print, globals_inv; cbn; auto.
  - unfold adsxSetVrefVolts, globals_inv; destruct (Qlt_le_dec 0 v); cbn; auto.
  - unfold adsxSetRange, globals_inv; cbn; split; [exact Hn |].
    split; [pose proof (land15_bounds rc); lia | exact Hc].
Qed.

Lemma globals_inv_reachable (cfg : config) (st : state) :
  reachable cfg st -> globals_inv cfg st.
Proof.
  induction 1 as [| st st' _ IH Hs].
  - unfold globals_inv, init_state, ADSX_RANGE_BIPOLAR_3X; cbn.
    split; [reflexivity | split; [lia | reflexivity]].
  - exact (globals_inv_step cfg st st' Hs IH).
Qed.

(** ** X12: invariants of every execution *)

(** In every reachable state the averaging count is 12 (nothing writes
    [g_num_averages]), the range code is a 4-bit value, and in a build with
    [ADSX_ENABLE_TWO_POINT_CAL] at 0 calibration is never enabled, so every
    reading is the uncorrected one. *)
Theorem reachable_globals (cfg : config) (st : state) :
  reachable cfg st ->
  g_num_averages st = 12 /\ num_samples st = 12 /\ 0 <= g_range_code st <= 15 /\
  (ADSX_ENABLE_TWO_POINT_CAL cfg = false ->
     g_cal_enabled st = false /\
     forall sample, adsxReadAveragedVolts cfg st sample = volts_raw cfg st sample).
Proof.
  intros Hr; destruct (globals_inv_reachable cfg st Hr) as (Hn & Hrg & Hc).
  split; [exact Hn |].
  split; [unfold num_samples; rewrite Hn; reflexivity |].
  split; [exact Hrg |].
  intros Hf; split; [exact (Hc Hf) |].
  intros sample; rewrite adsxReadAveragedVolts_branch; unfold cal_applies; rewrite Hf; reflexivity.
Qed.

(** ** X13: the accumulator never wraps in practice *)

(** In every reachable state the twelve codes summed by
    [adsxReadAveragedVolts] stay below 2^32 (12 * (2^18 - 1) < 2^32), so the
    [uint32_t] accumulator holds the exact sum and the averaged code is
    [sum / 12] rounded down. *)
Theorem reachable_accumulator_exact (cfg : config) (st : state) (sample : nat -> Z) :
  config_ok cfg -> reachable cfg st ->
  accumulate cfg sample 0 (Z.to_nat (num_samples st)) 0 = sum_codes cfg sample 0 12 /\
  float_to_uint32 (adsx_avg_code cfg st sample) = sum_codes cfg sample 0 12 / 12.
Proof.
  intros Hok Hr.
  destruct (globals_inv_reachable cfg st Hr) as (Hn & _ & _).
  assert (Hns : num_samples st = 12) by (unfold num_samples; rewrite Hn; reflexivity).
  pose proof (sum_codes_bounds cfg sample 12 Hok 0) as Hs.
  assert (HM : ADSX_CODE_MASK cfg <= 262143)
    by (unfold ADSX_CODE_MASK; destruct (ADSX_BITS cfg =? 18); lia).
  change (Z.of_nat 12) with 12 in Hs.
  assert (Hsm : sum_codes cfg sample 0 12 mod 2 ^ 32 = sum_codes cfg sample 0 12)
    by (apply Z.mod_small; lia).
  split.
  - rewrite accumulate_sum by lia; rewrite Hns, Z.add_0_l; exact Hsm.
  - rewrite avg_code_trunc_eq, Hns; change (Z.to_nat 12) with 12%nat; rewrite Hsm; reflexivity.
Qed.

(** ** Averaging in the states the sketch reaches *)

Lemma reachable_num_samples (cfg : config) (st : state) :
  reachable cfg st -> num_samples st = 12.
Proof.
  intros Hr; destruct (globals_inv_reachable cfg st Hr) as (Hn & _ & _).
  unfold num_samples; rewrite Hn; reflexivity.
Qed.

Lemma sum12_bounds (cfg : config) (sample : nat -> Z) :
  config_ok cfg -> 0 <= sum_codes cfg sample 0 12 <= 12 * (2 ^ 18 - 1).
Proof.
  intros Hok; pose proof (sum_codes_bounds cfg sample 12 Hok 0) as Hs.
  assert (HM : ADSX_CODE_MASK cfg <= 262143)
    by (unfold ADSX_CODE_MASK; destruct (ADSX_BITS cfg =? 18); lia).
  change (Z.of_nat 12) with 12 in Hs; lia.
Qed.

Lemma accumulate12 (cfg : config) (sample : nat -> Z) :
  config_ok cfg -> accumulate cfg sample 0 12 0 = sum_codes cfg sample 0 12.
Proof.
  intros Hok; pose proof (sum12_bounds cfg sample Hok).
  rewrite accumulate_sum by lia; rewrite Z.add_0_l; apply Z.mod_small; lia.
Qed.

(** The identity (exact arithmetic) is one such rounding. *)
Lemma f32_rounding_exact : f32_rounding (fun x => x).
Proof.
  split.
  - intros x z _ H; exact H.
  - intros x H1 _. setoid_replace (x - x)%Q with 0%Q by ring.
    simpl Qabs. apply Qle_shift_div_l; [reflexivity |].
    rewrite Qmult_0_l. apply Qle_trans with (1 # 2 ^ 126)%Q; [discriminate | exact H1].
Qed.

Lemma float_to_uint32_between (q : Z) (y : Q) :
  0 <= q -> (inject_Z q <= y)%Q -> (y < inject_Z (q + 1))%Q -> float_to_uint32 y = q.
Proof.
  intros Hq Hlo Hhi; destruct y as [a b]; unfold float_to_uint32; cbn [Qnum Qden].
  unfold Qle, Qlt in *; cbn [Qnum Qden inject_Z] in *.
  rewrite Z.quot_div_nonneg by nia.
  symmetry; apply Z.div_unique with (a - Zpos b * q); [left |]; nia.
Qed.

(** A sum of twelve codes of at most 18 bits is below 2^24, so both
    conversions are exact; the quotient [s / 12] is either an integer (kept
    exactly) or at least 1/12 away from the integers around it, far more
    than the rounding error (below 2^-6 here). Truncation therefore gives
    [s / 12] whatever the rounding. *)
Lemma avg_rounding_trunc (rnd : Q -> Q) (s : Z) :
  f32_rounding rnd -> 0 <= s <= 12 * (2 ^ 18 - 1) ->
  float_to_uint32 (rnd (rnd (inject_Z s) / rnd (inject_Z 12)))%Q = s / 12.
Proof.
  intros [Hex Hrel] Hs.
  assert (Ha : (rnd (inject_Z s) == inject_Z s)%Q) by (apply Hex; [lia | reflexivity]).
  assert (Hb : (rnd (inject_Z 12) == inject_Z 12)%Q) by (apply Hex; [lia | reflexivity]).
  set (x := (rnd (inject_Z s) / rnd (inject_Z 12))%Q).
  assert (Hx : (x == inject_Z s / inject_Z 12)%Q) by (unfold x; rewrite Ha, Hb; reflexivity).
  clearbody x.
  pose proof (Z.div_mod s 12 ltac:(lia)) as Hdm.
  pose proof (Z.mod_pos_bound s 12 ltac:(lia)) as Hr.
  set (q := s / 12) in *; set (r := s mod 12) in *; clearbody q r; subst s.
  assert (Hq : 0 <= q <= 2 ^ 18 - 1) by lia.
  assert (H12x : (12 * x == 12 * inject_Z q + inject_Z r)%Q).
  { rewrite Hx, inject_Z_plus, inject_Z_mult. field. }
  assert (Hqb : (0 <= inject_Z q <= 262143)%Q) by (unfold Qle; cbn; split; lia).
  assert (Hbounds : (inject_Z q <= rnd x)%Q /\ (rnd x < inject_Z q + 1)%Q).
  { destruct (Z.eq_dec r 0) as [Hr0 | Hr0].
    - subst r. change (inject_Z 0) with 0%Q in H12x.
      rewrite (Hex x q) by (lia || lra). lra.
    - assert (Hrb : (1 <= inject_Z r <= 11)%Q) by (unfold Qle; cbn; split; lia).
      assert (Hxl : (1 # 2 ^ 126 <= x)%Q)
        by (apply Qle_trans with (1 # 12)%Q; [discriminate | lra]).
      assert (Hxu : (x <= inject_Z (2 ^ 127))%Q)
        by (change (inject_Z (2 ^ 127)) with (170141183460469231731687303715884105728 # 1)%Q; lra).
      pose proof (Hrel x Hxl Hxu) as He; apply Qabs_Qle_condition in He.
      change (inject_Z (2 ^ 24)) with (16777216 # 1)%Q in He; unfold Qdiv in He.
      change (/ (16777216 # 1))%Q with (1 # 16777216)%Q in He.
      lra. }
  apply float_to_uint32_between; [lia | apply Hbounds |].
  rewrite inject_Z_plus; apply Hbounds.
Qed.

(** ** C4: averaging (as amended) *)

(** Claim C4 (as amended): in every state the sketch reaches, and in
    particular after [setup], [adsxReadAveragedVolts] reads [n = 12] codes,
    sums them in a [uint32_t] accumulator (the sum stays below 2^32, so it is
    exact), divides by 12 in floating point to the average [sum / 12], and
    then truncates that average toward zero to the [uint32_t] code that
    [adsxCodeToVolts] takes: with no correction applied the result is
    [adsxCodeToVolts(sum / 12)] (integer division). Single-precision
    rounding of the conversions and the division does not change that code. *)
Theorem averaged_read_truncates (cfg : config) (st : state) (sample : nat -> Z) :
  config_ok cfg -> reachable cfg st -> cal_applies cfg st = false ->
  num_samples st = 12 /\
  (adsx_avg_code cfg st sample == inject_Z (sum_codes cfg sample 0 12) / inject_Z 12)%Q /\
  adsxReadAveragedVolts cfg st sample =
    adsxCodeToVolts cfg st (sum_codes cfg sample 0 12 / 12) /\
  (forall rnd, f32_rounding rnd ->
     float_to_uint32 (adsx_avg_code_rnd rnd cfg st sample) = sum_codes cfg sample 0 12 / 12).
Proof.
  intros Hok Hr Hc.
  pose proof (reachable_num_samples cfg st Hr) as Hn.
  pose proof (accumulate12 cfg sample Hok) as Ha.
  pose proof (sum12_bounds cfg sample Hok) as Hs.
  split; [exact Hn |].
  split.
  { unfold adsx_avg_code; cbv zeta; rewrite Hn; change (Z.to_nat 12) with 12%nat.
    rewrite Ha; reflexivity. }
  split.
  - rewrite adsxReadAveragedVolts_branch, Hc; unfold volts_raw, adsx_avg_code; cbv zeta.
    rewrite Hn; change (Z.to_nat 12) with 12%nat; rewrite Ha.
    rewrite float_to_uint32_div by lia; reflexivity.
  - intros rnd Hrnd; unfold adsx_avg_code_rnd; cbv zeta.
    rewrite Hn; change (Z.to_nat 12) with 12%nat; rewrite Ha.
    apply avg_rounding_trunc; [exact Hrnd | lia].
Qed.

(** ** X11: averaging a constant code *)

(** In every reachable state, when each of the twelve reads returns the
    same code [c], the average is exactly [c], also with single-precision
    rounding; so, with no correction applied, the reading is
    [adsxCodeToVolts(c)]. *)
Theorem averaged_constant_code (cfg : config) (st : state) (sample : nat -> Z) (c : Z) :
  config_ok cfg -> reachable cfg st ->
  (forall j, (j < 12)%nat -> adsxReadCodeNbits cfg (sample j) = c) ->
  float_to_uint32 (adsx_avg_code cfg st sample) = c /\
  (forall rnd, f32_rounding rnd -> float_to_uint32 (adsx_avg_code_rnd rnd cfg st sample) = c) /\
  (cal_applies cfg st = false ->
     adsxReadAveragedVolts cfg st sample = adsxCodeToVolts cfg st c).
Proof.
  intros Hok Hr Hs.
  pose proof (reachable_num_samples cfg st Hr) as Hn.
  pose proof (accumulate12 cfg sample Hok) as Ha.
  pose proof (sum12_bounds cfg sample Hok) as Hb.
  assert (Hsum : sum_codes cfg sample 0 12 = 12 * c).
  { rewrite (sum_codes_const cfg sample c 12 0) by (intros j Hj; apply Hs; lia); reflexivity. }
  assert (Hq : sum_codes cfg sample 0 12 / 12 = c)
    by (rewrite Hsum, Z.mul_comm; apply Z.div_mul; lia).
  assert (E : float_to_uint32 (adsx_avg_code cfg st sample) = c).
  { unfold adsx_avg_code; cbv zeta; rewrite Hn; change (Z.to_nat 12) with 12%nat; rewrite Ha.
    rewrite float_to_uint32_div by lia; exact Hq. }
  split; [exact E |].
  split.
  - intros rnd Hrnd; unfold adsx_avg_code_rnd; cbv zeta.
    rewrite Hn; change (Z.to_nat 12) with 12%nat; rewrite Ha.
    rewrite avg_rounding_trunc by (exact Hrnd || lia); exact Hq.
  - intros Hca; rewrite adsxReadAveragedVolts_branch, Hca; unfold volts_raw; rewrite E; reflexivity.
Qed.

(** * Calibration and [setup], further *)

Lemma setup_useInternalRef (cfg : config) (st : state) :
  g_useInternalRef (setup cfg st) = true.
Proof.
  unfold setup, setup_cal, adsxSetVrefVolts, print, set_cal, adsxSetRange.
  split_ifs; reflexivity.
Qed.

Lemma setup_serial (cfg : config) (st : state) :
  exists pre, serial (setup cfg st) = serial st ++ pre ++ [MsgConfigured (ADSX_BITS cfg)].
Proof.
  assert (Hcal : forall st0, exists pre, serial (setup_cal cfg st0) = serial st0 ++ pre).
  { intros st0; unfold setup_cal, print, set_cal.
    split_ifs; cbn; rewrite <- ?app_assoc; eexists;
      first [reflexivity | symmetry; apply app_nil_r]. }
  unfold setup.
  destruct (Hcal (adsxSetRange (adsxSetVrefVolts st (Qmake 4096 1000))
                 (g_range_code (adsxSetVrefVolts st (Qmake 4096 1000))) true)) as [pre E].
  exists pre; unfold print; cbn [serial]; rewrite E, <- app_assoc.
  unfold adsxSetRange, adsxSetVrefVolts; split_ifs; reflexivity.
Qed.

(** ** X15: what [setup] leaves behind *)

(** Whatever happened before, [setup] leaves the reference at 4.096 V with
    the internal reference selected, keeps the range (reduced to its low
    nibble) and the averaging count, and its output ends with the
    "configured" line. *)
Theorem setup_configures (cfg : config) (st : state) :
  g_vref_volts (setup cfg st) = Qmake 4096 1000 /\
  g_useInternalRef (setup cfg st) = true /\
  g_range_code (setup cfg st) = Z.land (g_range_code st) 15 /\
  g_num_averages (setup cfg st) = g_num_averages st /\
  (exists pre, serial (setup cfg st) = serial st ++ pre ++ [MsgConfigured (ADSX_BITS cfg)]).
Proof.
  split; [apply vref_setup |].
  split; [apply setup_useInternalRef |].
  split; [apply setup_range |].
  split; [apply setup_num_averages | apply setup_serial].
Qed.

(** ** Witnesses for the further properties *)

Lemma xfer32_word_bytes_witness :
  is_byte 171 /\ is_byte 205 /\ is_byte 18 /\ is_byte 52 /\
  u8 (Z.shiftr (xfer32_word 171 205 18 52) 16) = 205.
Proof.
  unfold is_byte; split; [lia |]. split; [lia |]. split; [lia |]. split; [lia |].
  exact (proj1 (proj2 (proj2 (xfer32_word_bytes 171 205 18 52
           ltac:(unfold is_byte; lia) ltac:(unfold is_byte; lia)
           ltac:(unfold is_byte; lia) ltac:(unfold is_byte; lia))))).
Defined.

Lemma writeRegHWord_frame_encoding_witness :
  is_byte ADSX_REG_RANGE_SEL /\ 0 <= 75 < 2 ^ 16 /\
  writeRegHWord_frame ADSX_REG_RANGE_SEL 75 = [208; 20; 0; 75].
Proof.
  unfold is_byte, ADSX_REG_RANGE_SEL; split; [lia |]. split; [lia |].
  rewrite (proj1 (writeRegHWord_frame_encoding 20 75 ltac:(unfold is_byte; lia) ltac:(lia))).
  reflexivity.
Defined.

Lemma adsxReadCodeNbits_of_reply_witness :
  is_byte 128 /\ is_byte 1 /\ is_byte 192 /\ is_byte 0 /\
  adsxReadCodeNbits config18 (adsxReadCodeRaw32 (0, 0, 0, 0) (128, 1, 192, 0)) =
    128 * 1024 + 1 * 4 + 192 / 64.
Proof.
  unfold is_byte; split; [lia |]. split; [lia |]. split; [lia |]. split; [lia |].
  apply (proj2 (adsxReadCodeNbits_of_reply config18 (0, 0, 0, 0) 128 1 192 0
                  ltac:(unfold is_byte; lia) ltac:(unfold is_byte; lia)
                  ltac:(unfold is_byte; lia) ltac:(unfold is_byte; lia))).
  reflexivity.
Defined.

Lemma adsxCodeToVolts_within_full_scale_witness :
  config_ok shipped_config /\ reachable shipped_config init_state /\ 0 <= 4294967295 /\
  (- (3 * Qmake 4096 1000) <= adsxCodeToVolts shipped_config init_state 4294967295 /\
   adsxCodeToVolts shipped_config init_state 4294967295 < 3 * Qmake 4096 1000)%Q.
Proof.
  split; [left; reflexivity |]. split; [apply reach_init |]. split; [lia |].
  exact (adsxCodeToVolts_within_full_scale shipped_config init_state 4294967295
           (or_introl eq_refl) (reach_init shipped_config) ltac:(lia)).
Defined.

Lemma adsxCodeToVolts_end_points_witness :
  config_ok config18 /\
  (adsxCodeToVolts config18 init_state (2 ^ (18 - 1)) == 0)%Q.
Proof.
  split; [right; reflexivity |].
  exact (proj2 (proj2 (adsxCodeToVolts_end_points config18 init_state (or_intror eq_refl))) eq_refl).
Defined.

Lemma averaged_code_in_range_witness :
  config_ok config18 /\
  adsx_clamp config18 (float_to_uint32 (adsx_avg_code config18 init_state (fun _ => 4294967295))) =
    float_to_uint32 (adsx_avg_code config18 init_state (fun _ => 4294967295)).
Proof.
  split; [right; reflexivity |].
  exact (proj2 (averaged_code_in_range config18 init_state (fun _ => 4294967295) (or_intror eq_refl))).
Defined.

Lemma averaged_constant_code_witness :
  config_ok shipped_config /\ reachable shipped_config init_state /\
  adsxReadCodeNbits shipped_config (1000 * 65536) = 1000 /\
  float_to_uint32 (adsx_avg_code shipped_config init_state (fun _ => 1000 * 65536)) = 1000.
Proof.
  split; [left; reflexivity |]. split; [apply reach_init |]. split; [vm_compute; reflexivity |].
  exact (proj1 (averaged_constant_code shipped_config init_state (fun _ => 1000 * 65536) 1000
                  (or_introl eq_refl) (reach_init shipped_config)
                  ltac:(intros j _; vm_compute; reflexivity))).
Defined.

Lemma reachable_globals_witness :
  reachable shipped_config (after_setup shipped_config) /\
  num_samples (after_setup shipped_config) = 12.
Proof.
  assert (Hr : reachable shipped_config (after_setup shipped_config))
    by (eapply reach_step; [apply reach_init | apply step_setup]).
  split; [exact Hr |].
  exact (proj1 (proj2 (reachable_globals shipped_config _ Hr))).
Defined.

Lemma reachable_accumulator_exact_witness :
  config_ok config18 /\ reachable config18 init_state /\
  float_to_uint32 (adsx_avg_code config18 init_state (fun _ => 4294967295)) =
    sum_codes config18 (fun _ => 4294967295) 0 12 / 12.
Proof.
  split; [right; reflexivity |]. split; [apply reach_init |].
  exact (proj2 (reachable_accumulator_exact config18 init_state (fun _ => 4294967295)
                  (or_intror eq_refl) (reach_init config18))).
Defined.

(** ** Witness for the amended claim C4 *)

Lemma averaged_read_truncates_witness :
  config_ok shipped_config /\ reachable shipped_config init_state /\
  cal_applies shipped_config init_state = false /\
  adsxReadAveragedVolts shipped_config init_state half_sample =
    adsxCodeToVolts shipped_config init_state (sum_codes shipped_config half_sample 0 12 / 12).
Proof.
  split; [left; reflexivity |]. split; [apply reach_init |]. split; [reflexivity |].
  exact (proj1 (proj2 (proj2 (averaged_read_truncates shipped_config init_state half_sample
           (or_introl eq_refl) (reach_init shipped_config) eq_refl)))).
Defined.
